(** * create_dmg_background.py: the DMG background generator

    A shallow embedding of [src/create_dmg_background.py].  The script is one
    procedure: it allocates a 500x300 RGB canvas, paints a row-by-row
    gradient, resolves two fonts through try/except chains, draws a title
    and a subtitle with drop shadows, and saves the canvas as a PNG.

    Python's numbers are modelled as the interpreter has them: [int] is [Z],
    [float] is IEEE-754 binary64 (the kernel's primitive floats).  The
    imaging library, the file system and the console are the procedure's
    environment: a [Host] record answers what the library computes, a
    [World] record holds what the procedure can change, and every library
    call is appended to a trace. *)

From Stdlib Require Import ZArith List String Ascii Floats Uint63 Lia.
From Stdlib Require QArith.
From stdpp Require Import base option list gmap strings.

Open Scope Z_scope.

(** ** Python's built-in arithmetic *)

Inductive Exn : Type :=
| ZeroDivisionError
| OverflowError
| ValueError
| OSError (msg : string).

Module Py.

(** [float(z)] for an [int]: exact below 2^53, rounded to nearest even up
    to the 63 bits the primitive conversion takes. *)
Definition float (z : Z) : float :=
  if 0 <=? z then PrimFloat.of_uint63 (Uint63.of_Z z)
  else PrimFloat.opp (PrimFloat.of_uint63 (Uint63.of_Z (- z))).

(** [a / b] on two [int]s: true division, the correctly rounded binary64
    quotient, which for operands below 2^53 is the quotient of the two
    converted operands; [ZeroDivisionError] when [b] is zero. *)
Definition truediv (a b : Z) : Exn + PrimFloat.float :=
  if b =? 0 then inl ZeroDivisionError
  else inr (PrimFloat.div (float a) (float b)).

(** [i + x] for an [int] and a [float]: the [int] is converted first. *)
Definition add_int_float (i : Z) (x : PrimFloat.float) : PrimFloat.float :=
  PrimFloat.add (float i) x.

(** [int(x)] on a [float]: truncation toward zero; infinities raise
    [OverflowError], NaN raises [ValueError]. *)
Definition int (x : PrimFloat.float) : Exn + Z :=
  match Prim2SF x with
  | S754_zero _ => inr 0
  | S754_finite s m e =>
      let mag := match e with
                 | Z0 => Zpos m
                 | Zpos p => Zpos m * 2 ^ Zpos p
                 | Zneg p => Zpos m / 2 ^ Zpos p
                 end in
      inr (if s then - mag else mag)
  | S754_infinity _ => inl OverflowError
  | S754_nan => inl ValueError
  end.

(** [a // b] on [int]s: floor division, the remainder taking the sign of
    the divisor as with [Z.div]; the procedure only divides by 2. *)
Definition floordiv (a b : Z) : Z := a / b.

(** [range(n)]. *)
Definition range (n : Z) : list Z := map Z.of_nat (seq 0 (Z.to_nat n)).

(** [os.path.dirname] (posixpath): everything up to the last slash, with
    trailing slashes stripped unless the head is made of slashes only. *)
Definition is_slash (c : ascii) : bool := Ascii.eqb c "/"%char.

Fixpoint drop_while {A} (p : A -> bool) (l : list A) : list A :=
  match l with
  | [] => []
  | a :: l' => if p a then drop_while p l' else l
  end.

Definition dirname (p : string) : string :=
  let rhead := drop_while (fun c => negb (is_slash c)) (rev (list_ascii_of_string p)) in
  if forallb is_slash rhead then string_of_list_ascii (rev rhead)
  else string_of_list_ascii (rev (drop_while is_slash rhead)).

(** The directories [os.makedirs] walks through: every proper prefix of
    the path that ends before a slash, then the path itself. *)
Fixpoint prefixes (seen : list ascii) (rest : list ascii) : list string :=
  match rest with
  | [] => match seen with [] => [] | _ => [string_of_list_ascii (rev seen)] end
  | c :: rest' =>
      (if is_slash c
       then match seen with [] => [] | _ => [string_of_list_ascii (rev seen)] end
       else [])
      ++ prefixes (c :: seen) rest'
  end.

Definition ancestors (p : string) : list string :=
  prefixes [] (list_ascii_of_string p).

End Py.

(** The exact value the gradient formula denotes over the rationals,
    truncated toward zero. *)
Definition Qtrunc (q : QArith_base.Q) : Z :=
  Z.quot (QArith_base.Qnum q) (Zpos (QArith_base.Qden q)).

Definition exact_t (height y : Z) : Z :=
  Qtrunc (QArith_base.Qplus (QArith_base.inject_Z 240)
            (QArith_base.Qdiv (QArith_base.inject_Z (15 * y))
                              (QArith_base.inject_Z height))).

(** ** The gradient scalar (source line 19) *)

Definition bind_exn {A B} (m : Exn + A) (k : A -> Exn + B) : Exn + B :=
  match m with
  | inl e => inl e
  | inr a => k a
  end.

(** [color_value = int(240 + (15 * y / height))] *)
Definition color_value (height y : Z) : Exn + Z :=
  bind_exn (Py.truediv (15 * y) height) (fun q => Py.int (Py.add_int_float 240 q)).

Definition Color : Type := Z * Z * Z.

(** [color = (color_value, color_value + 10, color_value + 20)] (line 20) *)
Definition row_color (color_value : Z) : Color :=
  (color_value, color_value + 10, color_value + 20).

(** ** The environment of the procedure *)

Definition BBox : Type := Z * Z * Z * Z.

(** An RGB raster: mode, size and the stored pixels. *)
Record Image := mkImage {
  im_mode : string;
  im_size : Z * Z;
  im_px : Z -> Z -> Color
}.

Definition in_bounds (im : Image) (x y : Z) : bool :=
  (0 <=? x) && (x <? fst (im_size im)) && (0 <=? y) && (y <? snd (im_size im)).

Section Generator.

Context {Font : Type}.

(** What the host answers: which font files load, how text measures and
    rasterises, how a fill becomes a stored pixel, how an image encodes,
    and which paths the process may create or write. *)
Record Host := mkHost {
  truetype_file : string -> Z -> option Font;
  default_font : option Font;
  text_bbox : Z * Z -> string -> Font -> BBox;
  text_px : Z * Z -> string -> Color -> Font -> (Z -> Z -> Color) -> Z -> Z -> Color;
  segment_px : Z * Z -> Z * Z -> Z -> Z -> bool;
  ink : Color -> Color;
  encode : string -> Image -> list Byte.byte;
  may_write : string -> bool
}.

(** The library calls the procedure makes, in the order it makes them. *)
Inductive Call : Type :=
| CNew (mode : string) (size : Z * Z) (color : Color)
| CLine (p0 p1 : Z * Z) (fill : Color)
| CTruetype (path : string) (size : Z)
| CLoadDefault
| CTextbbox (xy : Z * Z) (text : string) (font : Font)
| CText (xy : Z * Z) (text : string) (fill : Color) (font : Font)
| CMakedirs (path : string) (exist_ok : bool)
| CSave (path : string) (format : string)
| CPrint (line : string).

Record World := mkWorld {
  dirs : gset string;
  files : gmap string (list Byte.byte);
  stdout : list string;
  calls : list Call
}.

Definition log (c : Call) (w : World) : World :=
  mkWorld (dirs w) (files w) (stdout w) (calls w ++ [c]).

(** *** State and exceptions *)

Definition M (A : Type) : Type := World -> (Exn + A) * World.

#[export] Instance M_ret : MRet M := fun A a w => (inr a, w).

#[export] Instance M_bind : MBind M := fun A B k m w =>
  match m w with
  | (inl e, w') => (inl e, w')
  | (inr a, w') => k a w'
  end.

Definition lift_exn {A} (r : Exn + A) : M A := fun w => (r, w).

(** [try: body  except: handler] with a bare [except], which catches
    every exception; what [body] did to the world before raising stays. *)
Definition try_except {A} (body handler : M A) : M A := fun w =>
  match body w with
  | (inl _, w') => handler w'
  | (inr a, w') => (inr a, w')
  end.

(** [for a in l: s = body a s] *)
Fixpoint for_each {A S} (l : list A) (body : A -> S -> M S) (s : S) : M S :=
  match l with
  | [] => mret s
  | a :: l' => s' ← body a s; for_each l' body s'
  end.

Variable host : Host.

(** *** The imaging library *)

(** ['white'] as [ImageColor] resolves it. *)
Definition white : Color := (255, 255, 255).

Definition Image_new (mode : string) (size : Z * Z) (color : Color) : M Image :=
  fun w => (inr (mkImage mode size (fun _ _ => ink host color)),
            log (CNew mode size color) w).

(** The pixels of a one-pixel-wide segment: a horizontal segment covers
    its row between its end points, both included; any other segment is
    rasterised by the host. *)
Definition on_line (p0 p1 : Z * Z) (x y : Z) : bool :=
  if snd p0 =? snd p1
  then (y =? snd p0) && (Z.min (fst p0) (fst p1) <=? x) && (x <=? Z.max (fst p0) (fst p1))
  else segment_px host p0 p1 x y.

Definition paint_line (im : Image) (p0 p1 : Z * Z) (fill : Color) : Image :=
  mkImage (im_mode im) (im_size im)
    (fun x y => if in_bounds im x y && on_line p0 p1 x y
                then ink host fill else im_px im x y).

(** [draw.line([p0, p1], fill=fill)] *)
Definition draw_line (im : Image) (p0 p1 : Z * Z) (fill : Color) : M Image :=
  fun w => (inr (paint_line im p0 p1 fill), log (CLine p0 p1 fill) w).

Definition paint_text (im : Image) (xy : Z * Z) (text : string) (fill : Color)
    (font : Font) : Image :=
  mkImage (im_mode im) (im_size im)
    (fun x y => if in_bounds im x y
                then text_px host xy text fill font (im_px im) x y
                else im_px im x y).

(** [draw.text(xy, text, fill=fill, font=font)] *)
Definition draw_text (im : Image) (xy : Z * Z) (text : string) (fill : Color)
    (font : Font) : M Image :=
  fun w => (inr (paint_text im xy text fill font), log (CText xy text fill font) w).

(** [draw.textbbox(xy, text, font=font)] *)
Definition textbbox (xy : Z * Z) (text : string) (font : Font) : M BBox :=
  fun w => (inr (text_bbox host xy text font), log (CTextbbox xy text font) w).

(** [ImageFont.truetype(path, size)]: [OSError] when the file does not
    load. *)
Definition truetype (path : string) (size : Z) : M Font :=
  fun w => (match truetype_file host path size with
            | Some f => inr f
            | None => inl (OSError "cannot open resource")
            end, log (CTruetype path size) w).

(** [ImageFont.load_default()] *)
Definition load_default : M Font :=
  fun w => (match default_font host with
            | Some f => inr f
            | None => inl (OSError "default font unavailable")
            end, log CLoadDefault w).

(** *** The file system and the console *)

(** [os.makedirs(path, exist_ok=exist_ok)]: creates the path and its
    missing ancestors; fails on an empty path, when a regular file is in
    the way, when a missing directory may not be created, or when the
    path is a directory already and [exist_ok] is false. *)
Definition makedirs (path : string) (exist_ok : bool) : M unit := fun w =>
  let w := log (CMakedirs path exist_ok) w in
  let ds := Py.ancestors path in
  if match ds with [] => true | _ => false end
     || existsb (fun d => bool_decide (is_Some (files w !! d))) ds
     || existsb (fun d => negb (bool_decide (d ∈ dirs w)) && negb (may_write host d)) ds
     || (negb exist_ok && bool_decide (path ∈ dirs w))
  then (inl (OSError path), w)
  else (inr tt, mkWorld (dirs w ∪ list_to_set ds) (files w) (stdout w) (calls w)).

(** [image.save(path, format)]: fails when the parent directory is
    missing, when the path is a directory, or when the file may not be
    written; otherwise the file holds the encoded image. *)
Definition save (im : Image) (path : string) (format : string) : M unit := fun w =>
  let w := log (CSave path format) w in
  let parent := Py.dirname path in
  if (negb (String.eqb parent "") && negb (bool_decide (parent ∈ dirs w)))
     || bool_decide (path ∈ dirs w)
     || negb (may_write host path)
  then (inl (OSError path), w)
  else (inr tt, mkWorld (dirs w) (<[path := encode host format im]> (files w))
                  (stdout w) (calls w)).

(** [print(line)] *)
Definition print (line : string) : M unit := fun w =>
  (inr tt, mkWorld (dirs w) (files w) (stdout w ++ [line]) (calls w ++ [CPrint line])).

(** ** The procedure *)

Definition arial : string := "/System/Library/Fonts/Arial.ttf".
Definition helvetica : string := "/System/Library/Fonts/Helvetica.ttc".
Definition title : string := "Autobuild".
Definition subtitle : string := "Drag to Applications folder".
Definition output_path : string := "native/resources/dmg_background.png".

(** Lines 17-21: the gradient pass. *)
Definition gradient (width height : Z) (image : Image) : M Image :=
  for_each (Py.range height) (fun y image =>
    color_value ← lift_exn (color_value height y);
    let color := row_color color_value in
    draw_line image (0, y) (width, y) color) image.

(** Lines 24-31: the title font. *)
Definition title_font : M Font :=
  try_except (truetype arial 24)
    (try_except (truetype helvetica 24)
       load_default).

(** Lines 35-40: where the title goes. *)
Definition title_xy (width height : Z) (bbox : BBox) : Z * Z :=
  let '(b0, b1, b2, b3) := bbox in
  let text_width := b2 - b0 in
  let text_height := b3 - b1 in
  let x := Py.floordiv (width - text_width) 2 in
  let y := Py.floordiv height 2 - text_height - 10 in
  (x, y).

(** Lines 34-44: the title and its shadow. *)
Definition draw_title (width height : Z) (image : Image) (font : Font) : M Image :=
  bbox ← textbbox (0, 0) title font;
  let '(x, y) := title_xy width height bbox in
  image ← draw_text image (x + 2, y + 2) title (100, 100, 100) font;
  draw_text image (x, y) title (50, 50, 50) font.

(** Lines 48-51: the subtitle font. *)
Definition subtitle_font : M Font :=
  try_except (truetype arial 16)
    load_default.

(** Lines 53-56: where the subtitle goes. *)
Definition subtitle_xy (width height : Z) (bbox : BBox) : Z * Z :=
  let '(b0, _, b2, _) := bbox in
  let text_width := b2 - b0 in
  let x := Py.floordiv (width - text_width) 2 in
  let y := Py.floordiv height 2 + 10 in
  (x, y).

(** Lines 47-59: the subtitle and its shadow. *)
Definition draw_subtitle (width height : Z) (image : Image) (small_font : Font)
    : M Image :=
  bbox ← textbbox (0, 0) subtitle small_font;
  let '(x, y) := subtitle_xy width height bbox in
  image ← draw_text image (x + 1, y + 1) subtitle (120, 120, 120) small_font;
  draw_text image (x, y) subtitle (80, 80, 80) small_font.

(** Lines 10-65.  [draw = ImageDraw.Draw(image)] binds the drawing
    context to the one canvas; the drawing calls below take that canvas
    and return it painted. *)
Definition create_dmg_background : M unit :=
  let width := 500 in
  let height := 300 in
  image ← Image_new "RGB" (width, height) white;
  image ← gradient width height image;
  font ← title_font;
  image ← draw_title width height image font;
  small_font ← subtitle_font;
  image ← draw_subtitle width height image small_font;
  makedirs (Py.dirname output_path) true;;
  save image output_path "PNG";;
  print ("DMG background image created: " ++ output_path).

End Generator.

(** * Closed forms

    What each block of the procedure amounts to, written without the
    monad, and the vocabulary for reading a trace. *)

(** One row's check: the binary64 computation returns, and its result is
    both the exact truncated value and [240 + y // 20]. *)
Definition row_agrees (n : nat) : bool :=
  match color_value 300 (Z.of_nat n) with
  | inr t => (t =? exact_t 300 (Z.of_nat n)) && (t =? 240 + Z.of_nat n / 20)
  | inl _ => false
  end.

(** A triple of 8-bit channel intensities. *)
Definition is_rgb8 (c : Color) : bool :=
  let '(r, g, b) := c in
  (0 <=? r) && (r <=? 255) && (0 <=? g) && (g <=? 255) && (0 <=? b) && (b <=? 255).

(** ** Sample hosts

    Font handles are named by strings.  Text measures six pixels a
    character and eleven a line, a fill saturates to eight bits a
    channel, glyphs fill their box, and every path may be written. *)

Definition clip8 (c : Color) : Color :=
  let '(r, g, b) := c in
  (Z.max 0 (Z.min 255 r), Z.max 0 (Z.min 255 g), Z.max 0 (Z.min 255 b)).

Definition box_bbox (advance : Z) (xy : Z * Z) (text : string) (font : string) : BBox :=
  (fst xy, snd xy, fst xy + advance * Z.of_nat (String.length text), snd xy + 11).

Definition box_px (advance : Z) (xy : Z * Z) (text : string) (fill : Color)
    (font : string) (px : Z -> Z -> Color) (x y : Z) : Color :=
  let '(l, t, r, b) := box_bbox advance xy text font in
  if (l <=? x) && (x <? r) && (t <=? y) && (y <? b) then clip8 fill else px x y.

Definition png_magic (format : string) (im : Image) : list Byte.byte :=
  [Byte.x89; Byte.x50; Byte.x4e; Byte.x47].

(** No system font loads; the built-in font does. *)
Definition bare_host : @Host string :=
  mkHost (fun _ _ => None) (Some "default")
         (box_bbox 6) (box_px 6) (fun _ _ _ _ => false) clip8 png_magic
         (fun _ => true).

(** Arial is missing, Helvetica loads at 24pt. *)
Definition helvetica_host : @Host string :=
  mkHost (fun path size =>
            if String.eqb path helvetica && (size =? 24)
            then Some "Helvetica 24" else None)
         (Some "default")
         (box_bbox 6) (box_px 6) (fun _ _ _ _ => false) clip8 png_magic
         (fun _ => true).

(** A host whose built-in font is so wide that every string measures 501
    pixels across. *)
Definition wide_bbox (xy : Z * Z) (text : string) (font : string) : BBox :=
  (fst xy, snd xy, fst xy + 501, snd xy + 11).

Definition wide_host : @Host string :=
  mkHost (fun _ _ => None) (Some "default")
         wide_bbox (fun _ _ _ _ px => px) (fun _ _ _ _ => false) clip8 png_magic
         (fun _ => true).

(** A host on which not even the built-in font loads. *)
Definition fontless_host : @Host string :=
  mkHost (fun _ _ => None) None
         (box_bbox 6) (box_px 6) (fun _ _ _ _ => false) clip8 png_magic
         (fun _ => true).

(** An empty working directory and a silent console. *)
Definition empty_world : @World string := mkWorld ∅ ∅ [] [].


Section Facts.

Context {Font : Type} (host : @Host Font).

(** A world after some more calls were logged. *)
Definition logs (l : list (@Call Font)) (w : @World Font) : @World Font :=
  mkWorld (dirs w) (files w) (stdout w) (calls w ++ l).

(** The line call of row [y] and what it paints, with the scalar in its
    integer form [240 + y // 20]. *)
Definition row_call (y : Z) : @Call Font :=
  CLine (0, y) (500, y) (row_color (240 + y / 20)).

Definition paint_row (im : Image) (y : Z) : Image :=
  paint_line host im (0, y) (500, y) (row_color (240 + y / 20)).

(** What a font chain returns: the handle it picked, or the error of the
    built-in font. *)
Definition font_result (o : option Font) : Exn + Font :=
  match o with
  | Some f => inr f
  | None => inl (OSError "default font unavailable")
  end.

Definition picked_title_font : option Font :=
  match truetype_file host arial 24 with
  | Some f => Some f
  | None =>
      match truetype_file host helvetica 24 with
      | Some f => Some f
      | None => default_font host
      end
  end.

Definition title_loads : list (@Call Font) :=
  match truetype_file host arial 24 with
  | Some _ => [CTruetype arial 24]
  | None =>
      match truetype_file host helvetica 24 with
      | Some _ => [CTruetype arial 24; CTruetype helvetica 24]
      | None => [CTruetype arial 24; CTruetype helvetica 24; CLoadDefault]
      end
  end.

Definition picked_subtitle_font : option Font :=
  match truetype_file host arial 16 with
  | Some f => Some f
  | None => default_font host
  end.

Definition subtitle_loads : list (@Call Font) :=
  match truetype_file host arial 16 with
  | Some _ => [CTruetype arial 16]
  | None => [CTruetype arial 16; CLoadDefault]
  end.

(** The calls and the painting of the title block, then of the subtitle
    block. *)
Definition title_calls (font : Font) : list (@Call Font) :=
  let '(x, y) := title_xy 500 300 (text_bbox host (0, 0) title font) in
  [CTextbbox (0, 0) title font;
   CText (x + 2, y + 2) title (100, 100, 100) font;
   CText (x, y) title (50, 50, 50) font].

Definition titled (im : Image) (font : Font) : Image :=
  let '(x, y) := title_xy 500 300 (text_bbox host (0, 0) title font) in
  paint_text host
    (paint_text host im (x + 2, y + 2) title (100, 100, 100) font)
    (x, y) title (50, 50, 50) font.

Definition subtitle_calls (small_font : Font) : list (@Call Font) :=
  let '(x, y) := subtitle_xy 500 300 (text_bbox host (0, 0) subtitle small_font) in
  [CTextbbox (0, 0) subtitle small_font;
   CText (x + 1, y + 1) subtitle (120, 120, 120) small_font;
   CText (x, y) subtitle (80, 80, 80) small_font].

Definition subtitled (im : Image) (small_font : Font) : Image :=
  let '(x, y) := subtitle_xy 500 300 (text_bbox host (0, 0) subtitle small_font) in
  paint_text host
    (paint_text host im (x + 1, y + 1) subtitle (120, 120, 120) small_font)
    (x, y) subtitle (80, 80, 80) small_font.

(** The console line, the directories [makedirs] goes through, and the
    world a completed run leaves behind. *)
Definition report : string :=
  "DMG background image created: native/resources/dmg_background.png".

Definition out_dirs : list string := ["native"; "native/resources"].

(** Lines 62-65. *)
Definition finish (im : Image) : M unit :=
  makedirs host (Py.dirname output_path) true;;
  save host im output_path "PNG";;
  print ("DMG background image created: " ++ output_path).

(** [makedirs] is refused: a regular file sits where a directory is
    needed, or a missing directory may not be created. *)
Definition dirs_blocked (w : @World Font) : bool :=
  existsb (fun d => bool_decide (is_Some (files w !! d))) out_dirs
  || existsb (fun d => negb (bool_decide (d ∈ dirs w)) && negb (may_write host d)) out_dirs.

(** [save] is refused: the output path is a directory, or may not be
    written. *)
Definition file_blocked (w : @World Font) : bool :=
  bool_decide (output_path ∈ dirs w) || negb (may_write host output_path).

Definition saved (im : Image) (w : @World Font) : @World Font :=
  mkWorld (dirs w ∪ list_to_set out_dirs)
          (<[output_path := encode host "PNG" im]> (files w))
          (stdout w ++ [report])
          (calls w ++ [CMakedirs "native/resources" true;
                       CSave output_path "PNG";
                       CPrint report]).

(** The canvas as allocated, after the gradient, and as saved. *)
Definition canvas0 : Image :=
  mkImage "RGB" (500, 300) (fun _ _ => ink host white).

Definition gradient_image : Image :=
  fold_left paint_row (Py.range 300) canvas0.

Definition final_image (font small_font : Font) : Image :=
  subtitled (titled gradient_image font) small_font.

Definition gradient_calls : list (@Call Font) :=
  CNew "RGB" (500, 300) white :: map row_call (Py.range 300).

Definition draw_calls (font small_font : Font) : list (@Call Font) :=
  gradient_calls ++ title_loads ++ title_calls font
    ++ subtitle_loads ++ subtitle_calls small_font.

Definition text_of (c : @Call Font) : option (Z * Z * string * Color * Font) :=
  match c with
  | CText xy text fill font => Some (xy, text, fill, font)
  | _ => None
  end.

(** The [draw.text] calls of a trace, in order. *)
Definition texts (l : list (@Call Font)) : list (Z * Z * string * Color * Font) :=
  omap text_of l.

Definition save_of (c : @Call Font) : option (string * string) :=
  match c with
  | CSave path format => Some (path, format)
  | _ => None
  end.

(** The [image.save] calls of a trace, in order. *)
Definition saves (l : list (@Call Font)) : list (string * string) :=
  omap save_of l.

Definition load_of (c : @Call Font) : option (option (string * Z)) :=
  match c with
  | CTruetype path size => Some (Some (path, size))
  | CLoadDefault => Some None
  | _ => None
  end.

(** The font loads of a trace, in order: [Some (path, size)] for a file,
    [None] for the built-in font. *)
Definition loads (l : list (@Call Font)) : list (option (string * Z)) :=
  omap load_of l.

(** * Verification *)

(** ** The gradient scalar over the 300 rows *)

Example color_value_samples :
  map (color_value 300) [0; 19; 20; 119; 120; 299]
  = [inr 240; inr 240; inr 241; inr 245; inr 246; inr 254].
Proof. vm_compute. reflexivity. Qed.

Example dirname_output_path :
  Py.dirname output_path = "native/resources"
  /\ Py.ancestors "native/resources" = ["native"; "native/resources"].
Proof. split; reflexivity. Qed.

Lemma rows_agree : forallb row_agrees (seq 0 300) = true.
Proof. vm_compute. reflexivity. Qed.

Lemma row_agrees_at (y : Z) :
  0 <= y < 300 -> row_agrees (Z.to_nat y) = true.
Proof.
  intros Hy.
  pose proof rows_agree as H.
  rewrite forallb_forall in H.
  apply H, in_seq. lia.
Qed.

Lemma color_value_row (y : Z) :
  0 <= y < 300 -> color_value 300 y = inr (240 + y / 20).
Proof.
  intros Hy. pose proof (row_agrees_at y Hy) as H.
  unfold row_agrees in H. rewrite Z2Nat.id in H by lia.
  destruct (color_value 300 y) as [e|t]; [discriminate|].
  apply andb_prop in H as [_ H]. apply Z.eqb_eq in H. now subst.
Qed.

Lemma color_value_exact (y : Z) :
  0 <= y < 300 -> color_value 300 y = inr (exact_t 300 y).
Proof.
  intros Hy. pose proof (row_agrees_at y Hy) as H.
  unfold row_agrees in H. rewrite Z2Nat.id in H by lia.
  destruct (color_value 300 y) as [e|t]; [discriminate|].
  apply andb_prop in H as [H _]. apply Z.eqb_eq in H. now subst.
Qed.

Lemma exact_t_row (y : Z) :
  0 <= y < 300 -> exact_t 300 y = 240 + y / 20.
Proof.
  intros Hy.
  pose proof (color_value_row y Hy) as H1.
  pose proof (color_value_exact y Hy) as H2.
  congruence.
Qed.

Lemma range_bounds (n : Z) : Forall (fun y => 0 <= y < n) (Py.range n).
Proof.
  unfold Py.range. apply Forall_forall. intros y Hy.
  apply list_elem_of_In, in_map_iff in Hy as (k & <- & Hk).
  apply in_seq in Hk. lia.
Qed.

Lemma range_elem (n y : Z) : y ∈ Py.range n <-> 0 <= y < n.
Proof.
  split.
  - intros Hy. pose proof (range_bounds n) as H.
    rewrite Forall_forall in H. now apply H.
  - intros Hy. apply list_elem_of_In, in_map_iff.
    exists (Z.to_nat y). split; [lia|]. apply in_seq. lia.
Qed.

Lemma range_lookup (n y : Z) :
  0 <= y < n -> Py.range n !! Z.to_nat y = Some y.
Proof.
  intros Hy. unfold Py.range.
  rewrite list_lookup_fmap, lookup_seq_lt by lia.
  simpl. f_equal. lia.
Qed.

Lemma range_length (n : Z) : length (Py.range n) = Z.to_nat n.
Proof. unfold Py.range. now rewrite length_map, length_seq. Qed.

(** ** Traces *)

Lemma log_logs (c : @Call Font) (l : list (@Call Font)) (w : @World Font) :
  log c (logs l w) = logs (l ++ [c]) w.
Proof. unfold log, logs. simpl. now rewrite app_assoc. Qed.

Lemma logs_logs (l l' : list (@Call Font)) (w : @World Font) :
  logs l' (logs l w) = logs (l ++ l') w.
Proof. unfold logs. simpl. now rewrite app_assoc. Qed.

Lemma log_one (c : @Call Font) (w : @World Font) : log c w = logs [c] w.
Proof. reflexivity. Qed.

(** Two worlds built from the same calls in a different grouping. *)
Ltac trace_eq :=
  unfold log, logs; simpl; rewrite <- ?app_assoc; simpl; reflexivity.

Lemma logs_nil (w : @World Font) : logs [] w = w.
Proof. destruct w. unfold logs. simpl. now rewrite app_nil_r. Qed.

(** ** The gradient pass in closed form *)

Lemma for_each_rows (l : list Z) :
  Forall (fun y => 0 <= y < 300) l ->
  forall im w,
    for_each l (fun y image =>
      color_value ← lift_exn (color_value 300 y);
      let color := row_color color_value in
      draw_line host image (0, y) (500, y) color) im w
    = (inr (fold_left paint_row l im), logs (map row_call l) w).
Proof.
  induction 1 as [|y l Hy _ IH]; intros im w.
  - simpl. now rewrite logs_nil.
  - change (for_each (y :: l) ?b im w)
      with ((s' ← b y im; for_each l b s') w).
    unfold mbind at 1, M_bind at 1.
    unfold mbind at 1, M_bind at 1, lift_exn.
    rewrite (color_value_row y Hy).
    unfold draw_line. rewrite IH, log_one, logs_logs.
    reflexivity.
Qed.

Lemma gradient_eq (im : Image) (w : @World Font) :
  gradient host 500 300 im w
  = (inr (fold_left paint_row (Py.range 300) im),
     logs (map row_call (Py.range 300)) w).
Proof. unfold gradient. apply for_each_rows, range_bounds. Qed.

Lemma fold_rows_size (l : list Z) (im : Image) :
  im_size (fold_left paint_row l im) = im_size im.
Proof. revert im. induction l as [|a l IH]; intros im; simpl; [|rewrite IH]; reflexivity. Qed.

Lemma fold_rows_mode (l : list Z) (im : Image) :
  im_mode (fold_left paint_row l im) = im_mode im.
Proof. revert im. induction l as [|a l IH]; intros im; simpl; [|rewrite IH]; reflexivity. Qed.

Lemma paint_row_px (im : Image) (a x y : Z) :
  in_bounds im x y = true -> 0 <= x <= 500 ->
  im_px (paint_row im a) x y
  = if bool_decide (y = a) then ink host (row_color (240 + a / 20)) else im_px im x y.
Proof.
  intros Hb Hx. unfold paint_row, paint_line, on_line. simpl.
  rewrite Hb, Z.eqb_refl. simpl.
  rewrite Z.min_l, Z.max_r by lia.
  case_bool_decide as Hya.
  - subst. rewrite Z.eqb_refl. simpl.
    replace (0 <=? x) with true by (symmetry; apply Z.leb_le; lia).
    replace (x <=? 500) with true by (symmetry; apply Z.leb_le; lia).
    reflexivity.
  - replace (y =? a) with false by (symmetry; apply Z.eqb_neq; lia).
    reflexivity.
Qed.

(** After the pass a pixel of a painted row holds that row's ink, and a
    pixel of any other row is untouched. *)
Lemma fold_rows_px (l : list Z) :
  forall im x y,
    in_bounds im x y = true -> 0 <= x <= 500 ->
    im_px (fold_left paint_row l im) x y
    = if bool_decide (y ∈ l) then ink host (row_color (240 + y / 20)) else im_px im x y.
Proof.
  induction l as [|a l IH]; intros im x y Hb Hx.
  - rewrite bool_decide_eq_false_2 by apply not_elem_of_nil. reflexivity.
  - simpl fold_left. rewrite IH by assumption.
    rewrite paint_row_px by assumption.
    destruct (decide (y ∈ l)) as [Hl|Hl].
    + rewrite (bool_decide_eq_true_2 _ Hl).
      rewrite bool_decide_eq_true_2; [reflexivity|].
      apply elem_of_cons. now right.
    + rewrite (bool_decide_eq_false_2 _ Hl).
      destruct (decide (y = a)) as [->|Hne].
      * rewrite bool_decide_eq_true_2 by reflexivity.
        rewrite bool_decide_eq_true_2; [reflexivity|].
        apply elem_of_cons. now left.
      * rewrite (bool_decide_eq_false_2 _ Hne).
        rewrite bool_decide_eq_false_2; [reflexivity|].
        now apply not_elem_of_cons.
Qed.

(** ** Sequencing *)

Lemma bind_ok {A B} (m : M A) (k : A -> M B) (w w' : @World Font) (a : A) :
  m w = (inr a, w') -> (x ← m; k x) w = k a w'.
Proof. intros H. unfold mbind, M_bind. now rewrite H. Qed.

Lemma bind_raise {A B} (m : M A) (k : A -> M B) (w w' : @World Font) (e : Exn) :
  m w = (inl e, w') -> (x ← m; k x) w = (inl e, w').
Proof. intros H. unfold mbind, M_bind. now rewrite H. Qed.

(** ** The two font chains in closed form *)

Lemma title_font_eq (w : @World Font) :
  title_font host w = (font_result picked_title_font, logs title_loads w).
Proof.
  unfold title_font, try_except, truetype, load_default,
    picked_title_font, title_loads, font_result.
  destruct (truetype_file host arial 24) as [f|]; [reflexivity|].
  destruct (truetype_file host helvetica 24) as [f|].
  - trace_eq.
  - destruct (default_font host); trace_eq.
Qed.

Lemma subtitle_font_eq (w : @World Font) :
  subtitle_font host w = (font_result picked_subtitle_font, logs subtitle_loads w).
Proof.
  unfold subtitle_font, try_except, truetype, load_default,
    picked_subtitle_font, subtitle_loads, font_result.
  destruct (truetype_file host arial 16) as [f|]; [reflexivity|].
  destruct (default_font host); trace_eq.
Qed.

(** ** The two text blocks in closed form *)

Lemma draw_title_eq (im : Image) (font : Font) (w : @World Font) :
  draw_title host 500 300 im font w = (inr (titled im font), logs (title_calls font) w).
Proof.
  unfold draw_title, titled, title_calls, textbbox, draw_text, mbind, M_bind.
  destruct (title_xy 500 300 (text_bbox host (0, 0) title font)) as [x y].
  trace_eq.
Qed.

Lemma draw_subtitle_eq (im : Image) (small_font : Font) (w : @World Font) :
  draw_subtitle host 500 300 im small_font w
  = (inr (subtitled im small_font), logs (subtitle_calls small_font) w).
Proof.
  unfold draw_subtitle, subtitled, subtitle_calls, textbbox, draw_text, mbind, M_bind.
  destruct (subtitle_xy 500 300 (text_bbox host (0, 0) subtitle small_font)) as [x y].
  trace_eq.
Qed.

Lemma titled_size (im : Image) (font : Font) : im_size (titled im font) = im_size im.
Proof. unfold titled. now destruct (title_xy _ _ _). Qed.

Lemma titled_mode (im : Image) (font : Font) : im_mode (titled im font) = im_mode im.
Proof. unfold titled. now destruct (title_xy _ _ _). Qed.

Lemma subtitled_size (im : Image) (font : Font) : im_size (subtitled im font) = im_size im.
Proof. unfold subtitled. now destruct (subtitle_xy _ _ _). Qed.

Lemma subtitled_mode (im : Image) (font : Font) : im_mode (subtitled im font) = im_mode im.
Proof. unfold subtitled. now destruct (subtitle_xy _ _ _). Qed.

(** ** Saving and reporting in closed form *)

Lemma output_path_fresh (w : @World Font) :
  bool_decide (output_path ∈ dirs w ∪ list_to_set out_dirs)
  = bool_decide (output_path ∈ dirs w).
Proof.
  apply bool_decide_ext. unfold out_dirs, output_path.
  rewrite elem_of_union, elem_of_list_to_set, !elem_of_cons, elem_of_nil.
  split; [|tauto].
  intros [H|[H|[H|[]]]]; [assumption|discriminate H|discriminate H].
Qed.

Lemma parent_made (w : @World Font) :
  bool_decide ("native/resources" ∈ dirs w ∪ list_to_set out_dirs) = true.
Proof.
  apply bool_decide_eq_true_2. unfold out_dirs.
  rewrite elem_of_union, elem_of_list_to_set, !elem_of_cons. tauto.
Qed.

Lemma finish_eq (im : Image) (w : @World Font) :
  finish im w =
  if dirs_blocked w
  then (inl (OSError "native/resources"), logs [CMakedirs "native/resources" true] w)
  else if file_blocked w
  then (inl (OSError output_path),
        mkWorld (dirs w ∪ list_to_set out_dirs) (files w) (stdout w)
                (calls w ++ [CMakedirs "native/resources" true; CSave output_path "PNG"]))
  else (inr tt, saved im w).
Proof.
  unfold finish, mbind, M_bind, makedirs.
  change (Py.dirname output_path) with "native/resources".
  change (Py.ancestors "native/resources") with out_dirs.
  change (negb true) with false. cbv beta zeta.
  change (files (log _ w)) with (files w).
  change (dirs (log _ w)) with (dirs w).
  fold (dirs_blocked w).
  rewrite andb_false_l, orb_false_r.
  change (match out_dirs with [] => true | _ => false end) with false.
  rewrite orb_false_l.
  change (existsb (fun d => bool_decide (is_Some (files w !! d))) out_dirs
          || existsb (fun d => negb (bool_decide (d ∈ dirs w)) && negb (may_write host d)) out_dirs)
    with (dirs_blocked w).
  destruct (dirs_blocked w); [reflexivity|].
  unfold save. cbv beta zeta.
  change (Py.dirname output_path) with "native/resources".
  change (String.eqb "native/resources" "") with false.
  change (negb false) with true. rewrite andb_true_l.
  unfold log at 1 2 3. simpl dirs.
  rewrite parent_made, output_path_fresh. simpl negb. rewrite orb_false_l.
  fold (file_blocked w).
  destruct (file_blocked w).
  - unfold log. simpl. rewrite <- app_assoc. reflexivity.
  - unfold print, saved, log. simpl. rewrite <- !app_assoc. reflexivity.
Qed.

(** ** The whole run in closed form *)

Lemma run_eq (w : @World Font) :
  create_dmg_background host w =
  match picked_title_font with
  | None => (inl (OSError "default font unavailable"),
             logs (gradient_calls ++ title_loads) w)
  | Some font =>
      match picked_subtitle_font with
      | None => (inl (OSError "default font unavailable"),
                 logs (gradient_calls ++ title_loads ++ title_calls font
                         ++ subtitle_loads) w)
      | Some small_font =>
          finish (final_image font small_font) (logs (draw_calls font small_font) w)
      end
  end.
Proof.
  unfold create_dmg_background. cbv zeta.
  rewrite (bind_ok _ _ w (logs [CNew "RGB" (500, 300) white] w) canvas0)
    by reflexivity.
  rewrite (bind_ok _ _ _ _ _ (gradient_eq _ _)), logs_logs.
  fold gradient_image. change ([CNew "RGB" (500, 300) white] ++ _) with gradient_calls.
  destruct picked_title_font as [font|] eqn:Ht.
  - rewrite (bind_ok _ _ _ (logs title_loads (logs gradient_calls w)) font)
      by (now rewrite title_font_eq, Ht).
    rewrite (bind_ok _ _ _ _ _ (draw_title_eq _ _ _)), !logs_logs.
    destruct picked_subtitle_font as [small_font|] eqn:Hs.
    + rewrite (bind_ok _ _ _ (logs subtitle_loads
                 (logs ((gradient_calls ++ title_loads) ++ title_calls font) w)) small_font)
        by (now rewrite subtitle_font_eq, Hs).
      rewrite (bind_ok _ _ _ _ _ (draw_subtitle_eq _ _ _)), !logs_logs.
      unfold draw_calls, final_image. rewrite <- !app_assoc. reflexivity.
    + rewrite (bind_raise _ _ _ (logs subtitle_loads
                 (logs ((gradient_calls ++ title_loads) ++ title_calls font) w))
                 (OSError "default font unavailable"))
        by (now rewrite subtitle_font_eq, Hs).
      rewrite logs_logs, <- !app_assoc. reflexivity.
  - rewrite (bind_raise _ _ _ (logs title_loads (logs gradient_calls w))
               (OSError "default font unavailable"))
      by (now rewrite title_font_eq, Ht).
    now rewrite logs_logs.
Qed.

(** A successful run: both fonts resolved, nothing in the way on disk,
    and the world afterwards is the saved one. *)
Lemma run_ok_inv (w w' : @World Font) :
  create_dmg_background host w = (inr tt, w') ->
  exists font small_font,
    picked_title_font = Some font /\
    picked_subtitle_font = Some small_font /\
    dirs_blocked w = false /\
    file_blocked w = false /\
    w' = saved (final_image font small_font) (logs (draw_calls font small_font) w).
Proof.
  rewrite run_eq.
  destruct picked_title_font as [font|]; [|discriminate].
  destruct picked_subtitle_font as [small_font|]; [|discriminate].
  rewrite finish_eq.
  change (dirs_blocked (logs _ w)) with (dirs_blocked w).
  change (file_blocked (logs _ w)) with (file_blocked w).
  destruct (dirs_blocked w); [discriminate|].
  destruct (file_blocked w); [discriminate|].
  intros [= <-]. now exists font, small_font.
Qed.

Lemma run_ok_intro (w : @World Font) (font small_font : Font) :
  picked_title_font = Some font ->
  picked_subtitle_font = Some small_font ->
  dirs_blocked w = false ->
  file_blocked w = false ->
  create_dmg_background host w
  = (inr tt, saved (final_image font small_font) (logs (draw_calls font small_font) w)).
Proof.
  intros Ht Hs Hd Hf. rewrite run_eq, Ht, Hs, finish_eq.
  change (dirs_blocked (logs _ w)) with (dirs_blocked w).
  change (file_blocked (logs _ w)) with (file_blocked w).
  now rewrite Hd, Hf.
Qed.

(** ** Reading a trace *)

Lemma texts_rows (l : list Z) : texts (map row_call l) = [].
Proof. induction l as [|a l IH]; [reflexivity|exact IH]. Qed.

Lemma saves_rows (l : list Z) : saves (map row_call l) = [].
Proof. induction l as [|a l IH]; [reflexivity|exact IH]. Qed.

Lemma texts_title_loads : texts title_loads = [].
Proof.
  unfold title_loads.
  destruct (truetype_file host arial 24); [reflexivity|].
  now destruct (truetype_file host helvetica 24).
Qed.

Lemma texts_subtitle_loads : texts subtitle_loads = [].
Proof. unfold subtitle_loads. now destruct (truetype_file host arial 16). Qed.

Lemma saves_title_loads : saves title_loads = [].
Proof.
  unfold title_loads.
  destruct (truetype_file host arial 24); [reflexivity|].
  now destruct (truetype_file host helvetica 24).
Qed.

Lemma saves_subtitle_loads : saves subtitle_loads = [].
Proof. unfold subtitle_loads. now destruct (truetype_file host arial 16). Qed.

Lemma texts_draw_calls (font small_font : Font) :
  texts (draw_calls font small_font)
  = texts (title_calls font) ++ texts (subtitle_calls small_font).
Proof.
  unfold draw_calls, texts, gradient_calls.
  rewrite !omap_app. fold texts.
  change (omap text_of (CNew "RGB" (500, 300) white :: map row_call (Py.range 300)))
    with (texts (map row_call (Py.range 300))).
  fold (texts title_loads). fold (texts subtitle_loads).
  now rewrite texts_rows, texts_title_loads, texts_subtitle_loads.
Qed.

Lemma saves_draw_calls (font small_font : Font) :
  saves (draw_calls font small_font) = [].
Proof.
  unfold draw_calls, saves, gradient_calls.
  rewrite !omap_app. fold saves.
  change (omap save_of (CNew "RGB" (500, 300) white :: map row_call (Py.range 300)))
    with (saves (map row_call (Py.range 300))).
  fold (saves title_loads). fold (saves subtitle_loads).
  rewrite saves_rows, saves_title_loads, saves_subtitle_loads.
  unfold title_calls, subtitle_calls.
  destruct (title_xy _ _ _), (subtitle_xy _ _ _). reflexivity.
Qed.

End Facts.

(** ** What a successful run leaves behind *)

Lemma texts_app {Font : Type} (l l' : list (@Call Font)) :
  texts (l ++ l') = texts l ++ texts l'.
Proof. apply omap_app. Qed.

Lemma saves_app {Font : Type} (l l' : list (@Call Font)) :
  saves (l ++ l') = saves l ++ saves l'.
Proof. apply omap_app. Qed.

Lemma title_font_fst {Font : Type} (host : @Host Font) (w : World) :
  fst (title_font host w) = font_result (picked_title_font host).
Proof. now rewrite title_font_eq. Qed.

Lemma subtitle_font_fst {Font : Type} (host : @Host Font) (w : World) :
  fst (subtitle_font host w) = font_result (picked_subtitle_font host).
Proof. now rewrite subtitle_font_eq. Qed.

Lemma title_xy_eq (l t r b : Z) :
  title_xy 500 300 (l, t, r, b) = ((500 - (r - l)) / 2, 300 / 2 - (b - t) - 10).
Proof. reflexivity. Qed.

Lemma subtitle_xy_eq (l t r b : Z) :
  subtitle_xy 500 300 (l, t, r, b) = ((500 - (r - l)) / 2, 300 / 2 + 10).
Proof. reflexivity. Qed.

Lemma run_leaves {Font : Type} (host : @Host Font) (w w' : World) :
  create_dmg_background host w = (inr tt, w') ->
  exists font small_font,
    picked_title_font host = Some font
    /\ picked_subtitle_font host = Some small_font
    /\ skipn (length (calls w)) (calls w')
       = draw_calls host font small_font
           ++ [CMakedirs "native/resources" true; CSave output_path "PNG"; CPrint report]
    /\ files w' = <[output_path := encode host "PNG" (final_image host font small_font)]> (files w)
    /\ dirs w' = dirs w ∪ list_to_set out_dirs
    /\ stdout w' = stdout w ++ [report].
Proof.
  intros H. apply run_ok_inv in H as (font & small_font & Ht & Hs & _ & _ & ->).
  exists font, small_font. unfold saved, logs. cbn [calls files dirs stdout].
  repeat split; try assumption.
  now rewrite <- app_assoc, drop_app_length.
Qed.

Lemma final_image_size {Font : Type} (host : @Host Font) (font small_font : Font) :
  im_size (final_image host font small_font) = (500, 300)
  /\ im_mode (final_image host font small_font) = "RGB".
Proof.
  unfold final_image, gradient_image.
  rewrite subtitled_size, titled_size, fold_rows_size.
  rewrite subtitled_mode, titled_mode, fold_rows_mode.
  split; reflexivity.
Qed.

(** * The claims *)

(** ** Font resolution *)

(** C1: the title font is resolved by an ordered chain: Arial at 24 first;
    if that load fails, Helvetica at 24; if that fails too, the built-in
    font.  The loads are attempted in that order and no further than the
    first success, and an error leaves the chain only when the built-in
    font itself fails to load. *)
Theorem title_font_fallback_chain {Font : Type} (host : @Host Font) (w : World) :
  title_font host w =
    match truetype_file host arial 24 with
    | Some f => (inr f, logs [CTruetype arial 24] w)
    | None =>
        match truetype_file host helvetica 24 with
        | Some f => (inr f, logs [CTruetype arial 24; CTruetype helvetica 24] w)
        | None =>
            (match default_font host with
             | Some f => inr f
             | None => inl (OSError "default font unavailable")
             end,
             logs [CTruetype arial 24; CTruetype helvetica 24; CLoadDefault] w)
        end
    end
  /\ (forall e, fst (title_font host w) = inl e ->
        default_font host = None
        /\ calls (snd (title_font host w))
           = calls w ++ [CTruetype arial 24; CTruetype helvetica 24; CLoadDefault]).
Proof.
  rewrite title_font_eq.
  unfold picked_title_font, title_loads, font_result.
  destruct (truetype_file host arial 24) as [f|];
    [split; [reflexivity|discriminate]|].
  destruct (truetype_file host helvetica 24) as [f|];
    [split; [reflexivity|discriminate]|].
  destruct (default_font host) as [f|]; split; try reflexivity.
  - discriminate.
  - intros e _. split; reflexivity.
Qed.

Lemma title_font_fallback_chain_witness :
  title_font helvetica_host empty_world
  = (inr "Helvetica 24", logs [CTruetype arial 24; CTruetype helvetica 24] empty_world)
  /\ fst (title_font bare_host empty_world) = inr "default"
  /\ default_font fontless_host = None.
Proof.
  split; [|split].
  - exact (proj1 (title_font_fallback_chain helvetica_host empty_world)).
  - now rewrite (proj1 (title_font_fallback_chain bare_host empty_world)).
  - exact (proj1 (proj2 (title_font_fallback_chain fontless_host empty_world)
                    (OSError "default font unavailable") eq_refl)).
Defined.

(** C7: the subtitle font makes one attempt, Arial at 16, and on its
    failure goes straight to the built-in font: Helvetica is never tried.
    Its outcome depends on nothing but that one load and the built-in
    font, so two hosts that agree on those resolve the same subtitle
    handle whatever their title fonts are. *)
Theorem subtitle_font_single_attempt {Font : Type} (host host' : @Host Font)
    (w w' : World) :
  subtitle_font host w =
    match truetype_file host arial 16 with
    | Some f => (inr f, logs [CTruetype arial 16] w)
    | None =>
        (match default_font host with
         | Some f => inr f
         | None => inl (OSError "default font unavailable")
         end,
         logs [CTruetype arial 16; CLoadDefault] w)
    end
  /\ (forall size, ~ In (CTruetype helvetica size)
                      (skipn (length (calls w)) (calls (snd (subtitle_font host w)))))
  /\ (truetype_file host arial 16 = truetype_file host' arial 16 ->
      default_font host = default_font host' ->
      fst (subtitle_font host w) = fst (subtitle_font host' w')).
Proof.
  rewrite !subtitle_font_eq.
  unfold picked_subtitle_font, subtitle_loads, font_result.
  split; [|split].
  - destruct (truetype_file host arial 16) as [f|]; [reflexivity|].
    now destruct (default_font host).
  - intros size. unfold logs. simpl calls.
    rewrite drop_app_length.
    destruct (truetype_file host arial 16) as [f|]; simpl;
      intros H; repeat (destruct H as [H|H]; [discriminate H|]); exact H.
  - intros Ha Hd. simpl. now rewrite Ha, Hd.
Qed.

Lemma subtitle_font_single_attempt_witness :
  subtitle_font helvetica_host empty_world
  = (inr "default", logs [CTruetype arial 16; CLoadDefault] empty_world)
  /\ fst (subtitle_font helvetica_host empty_world)
     = fst (subtitle_font bare_host empty_world).
Proof.
  split.
  - exact (proj1 (subtitle_font_single_attempt helvetica_host bare_host
                    empty_world empty_world)).
  - exact (proj2 (proj2 (subtitle_font_single_attempt helvetica_host bare_host
                           empty_world empty_world)) eq_refl eq_refl).
Defined.

(** ** The gradient *)

(** C2: for every row [y] of the 300, the gradient pass issues one line
    call for that row, from [(0, y)] to [(500, y)], filled with
    [(t, t + 10, t + 20)] where [t] is the truncation of
    [240 + 15 * y / 300]; after the pass every pixel of the row holds the
    ink of that fill. *)
Theorem gradient_paints_rows {Font : Type} (host : @Host Font) (w : World)
    (x y : Z) :
  0 <= x < 500 -> 0 <= y < 300 ->
  exists im new t,
    (image ← Image_new host "RGB" (500, 300) white;
     gradient host 500 300 image) w = (inr im, logs new w)
    /\ color_value 300 y = inr t
    /\ t = exact_t 300 y
    /\ length new = 301%nat
    /\ new !! S (Z.to_nat y) = Some (CLine (0, y) (500, y) (t, t + 10, t + 20))
    /\ im_px im x y = ink host (t, t + 10, t + 20).
Proof.
  intros Hx Hy.
  exists (gradient_image host), (@gradient_calls Font), (240 + y / 20).
  split; [|split; [|split; [|split; [|split]]]].
  - rewrite (bind_ok _ _ w (logs [CNew "RGB" (500, 300) white] w) (canvas0 host))
      by reflexivity.
    now rewrite gradient_eq, logs_logs.
  - now apply color_value_row.
  - symmetry. now apply exact_t_row.
  - unfold gradient_calls. cbn [length]. now rewrite length_map, range_length.
  - unfold gradient_calls. rewrite lookup_cons.
    change (map (@row_call Font) (Py.range 300))
      with (@row_call Font <$> Py.range 300).
    now rewrite list_lookup_fmap, range_lookup.
  - unfold gradient_image. rewrite fold_rows_px.
    + rewrite bool_decide_eq_true_2 by now apply range_elem.
      reflexivity.
    + unfold in_bounds, canvas0. simpl.
      apply andb_true_intro; split; [apply andb_true_intro; split;
        [apply andb_true_intro; split|]|]; first [apply Z.leb_le | apply Z.ltb_lt]; lia.
    + lia.
Qed.

Lemma gradient_paints_rows_witness :
  exists im new t,
    (image ← Image_new bare_host "RGB" (500, 300) white;
     gradient bare_host 500 300 image) empty_world = (inr im, logs new empty_world)
    /\ color_value 300 120 = inr t
    /\ t = exact_t 300 120
    /\ length new = 301%nat
    /\ new !! S (Z.to_nat 120) = Some (CLine (0, 120) (500, 120) (t, t + 10, t + 20))
    /\ im_px im 499 120 = ink bare_host (t, t + 10, t + 20).
Proof.
  apply (gradient_paints_rows bare_host empty_world 499 120); lia.
Defined.

(** C3, as the code has it: for every row of the 300 only the red channel
    [t] stays within 240..255 (it lies in 240..254); the green channel
    [t + 10] lies in 250..264 and the blue channel [t + 20] in 260..274. *)
Theorem gradient_channel_ranges (y : Z) :
  0 <= y < 300 ->
  exists t,
    color_value 300 y = inr t
    /\ row_color t = (t, t + 10, t + 20)
    /\ 240 <= t <= 254
    /\ 250 <= t + 10 <= 264
    /\ 260 <= t + 20 <= 274.
Proof.
  intros Hy. exists (240 + y / 20).
  split; [now apply color_value_row|].
  split; [reflexivity|].
  assert (0 <= y / 20 <= 14).
  { split; [apply Z.div_pos; lia|].
    apply Z.lt_succ_r, Z.div_lt_upper_bound; lia. }
  lia.
Qed.

Lemma gradient_channel_ranges_witness :
  exists t,
    color_value 300 299 = inr t
    /\ row_color t = (t, t + 10, t + 20)
    /\ 240 <= t <= 254
    /\ 250 <= t + 10 <= 264
    /\ 260 <= t + 20 <= 274.
Proof. apply (gradient_channel_ranges 299). lia. Defined.

(** C3 as the specification words it, that all three channels of every
    row stay within 240..255, fails at the first row: its blue channel is
    260. *)
Lemma gradient_channels_within_255_fails :
  ~ (forall y, 0 <= y < 300 ->
     forall t, color_value 300 y = inr t ->
       let '(r, g, b) := row_color t in
       240 <= r <= 255 /\ 240 <= g <= 255 /\ 240 <= b <= 255).
Proof.
  intros H.
  assert (H0 : color_value 300 0 = inr 240) by (vm_compute; reflexivity).
  specialize (H 0 ltac:(lia) 240 H0).
  simpl in H. lia.
Qed.

(** C4: the gradient scalar never decreases from one row to a lower one,
    and on every row of the 300 it lies within 240..255. *)
Theorem gradient_scalar_monotone :
  (forall y1 y2, 0 <= y1 -> y1 < y2 -> y2 < 300 ->
     exists t1 t2,
       color_value 300 y1 = inr t1 /\ color_value 300 y2 = inr t2 /\ t1 <= t2)
  /\ (forall y, 0 <= y < 300 ->
        exists t, color_value 300 y = inr t /\ 240 <= t <= 255).
Proof.
  split.
  - intros y1 y2 H0 H12 H2.
    exists (240 + y1 / 20), (240 + y2 / 20).
    split; [apply color_value_row; lia|].
    split; [apply color_value_row; lia|].
    apply Z.add_le_mono_l, Z.div_le_mono; lia.
  - intros y Hy. exists (240 + y / 20).
    split; [now apply color_value_row|].
    assert (0 <= y / 20 <= 14).
    { split; [apply Z.div_pos; lia|].
      apply Z.lt_succ_r, Z.div_lt_upper_bound; lia. }
    lia.
Qed.

Lemma gradient_scalar_monotone_witness :
  (exists t1 t2,
     color_value 300 19 = inr t1 /\ color_value 300 20 = inr t2 /\ t1 <= t2)
  /\ (exists t, color_value 300 299 = inr t /\ 240 <= t <= 255).
Proof.
  split.
  - apply (proj1 gradient_scalar_monotone 19 20); lia.
  - apply (proj2 gradient_scalar_monotone 299); lia.
Defined.

(** C10: on every row of the 300 the blue channel handed to the line call,
    [t + 20], is at least 260; from row 120 on the green channel [t + 10]
    exceeds 255 as well; so the fill of no row's line call is a triple of
    8-bit intensities. *)
Theorem gradient_fill_exceeds_8_bits {Font : Type} (host : @Host Font)
    (im : Image) (w : World) (y : Z) :
  0 <= y < 300 ->
  exists t,
    color_value 300 y = inr t
    /\ In (CLine (0, y) (500, y) (t, t + 10, t + 20))
          (calls (snd (gradient host 500 300 im w)))
    /\ 260 <= t + 20
    /\ (120 <= y -> 255 < t + 10)
    /\ is_rgb8 (t, t + 10, t + 20) = false.
Proof.
  intros Hy. exists (240 + y / 20).
  assert (Hq : 0 <= y / 20) by (apply Z.div_pos; lia).
  split; [now apply color_value_row|].
  split; [|split; [lia|split]].
  - rewrite gradient_eq. unfold logs. cbn [snd calls].
    apply in_or_app. right.
    apply in_map_iff. exists y. split; [reflexivity|].
    now apply list_elem_of_In, range_elem.
  - intros H120.
    assert (6 <= y / 20) by (apply Z.div_le_lower_bound; lia).
    lia.
  - unfold is_rgb8.
    replace (240 + y / 20 + 20 <=? 255) with false
      by (symmetry; apply Z.leb_gt; lia).
    now rewrite andb_false_r.
Qed.

Lemma gradient_fill_exceeds_8_bits_witness :
  exists t,
    color_value 300 120 = inr t
    /\ In (CLine (0, 120) (500, 120) (t, t + 10, t + 20))
          (calls (snd (gradient bare_host 500 300 (canvas0 bare_host) empty_world)))
    /\ 260 <= t + 20
    /\ (120 <= 120 -> 255 < t + 10)
    /\ is_rgb8 (t, t + 10, t + 20) = false.
Proof.
  apply (gradient_fill_exceeds_8_bits bare_host (canvas0 bare_host) empty_world 120).
  lia.
Defined.

(** ** Text placement *)

(** C5, as the code has it: with [w] and [h] the width and height of the
    title's bounding box, the title is drawn at
    [x = floor ((500 - w) / 2)], [y = 300 // 2 - h - 10]; with [w'] the
    width of the subtitle's box the subtitle is drawn at
    [x' = floor ((500 - w') / 2)], [y' = 300 // 2 + 10].  The floor is the
    quotient rounded toward zero whenever the text is no wider than the
    canvas. *)
Theorem text_positions {Font : Type} (host : @Host Font) (w w' : World) :
  create_dmg_background host w = (inr tt, w') ->
  exists font small_font,
    fst (title_font host w) = inr font
    /\ fst (subtitle_font host w) = inr small_font
    /\ let '(l, t, r, b) := text_bbox host (0, 0) title font in
       let '(l', _, r', _) := text_bbox host (0, 0) subtitle small_font in
       In ((500 - (r - l)) / 2, 300 / 2 - (b - t) - 10, title, (50, 50, 50), font)
          (texts (skipn (length (calls w)) (calls w')))
       /\ In ((500 - (r' - l')) / 2, 300 / 2 + 10, subtitle, (80, 80, 80), small_font)
             (texts (skipn (length (calls w)) (calls w')))
       /\ (r - l <= 500 -> (500 - (r - l)) / 2 = Z.quot (500 - (r - l)) 2)
       /\ (r' - l' <= 500 -> (500 - (r' - l')) / 2 = Z.quot (500 - (r' - l')) 2).
Proof.
  intros H.
  apply run_leaves in H as (font & small_font & Ht & Hs & Hc & _).
  exists font, small_font.
  rewrite title_font_fst, subtitle_font_fst, Ht, Hs.
  split; [reflexivity|split; [reflexivity|]].
  rewrite Hc, texts_app, texts_draw_calls. unfold title_calls, subtitle_calls.
  destruct (text_bbox host (0, 0) title font) as [[[l t] r] b].
  destruct (text_bbox host (0, 0) subtitle small_font) as [[[l' t'] r'] b'].
  rewrite title_xy_eq, subtitle_xy_eq. cbn [texts omap text_of app].
  split; [|split; [|split]].
  - right. left. reflexivity.
  - right. right. right. left. reflexivity.
  - intros Hw. rewrite Z.quot_div_nonneg by lia. reflexivity.
  - intros Hw. rewrite Z.quot_div_nonneg by lia. reflexivity.
Qed.

Lemma text_positions_witness :
  exists font small_font,
    fst (title_font bare_host empty_world) = inr font
    /\ fst (subtitle_font bare_host empty_world) = inr small_font
    /\ let '(l, t, r, b) := text_bbox bare_host (0, 0) title font in
       let '(l', _, r', _) := text_bbox bare_host (0, 0) subtitle small_font in
       In ((500 - (r - l)) / 2, 300 / 2 - (b - t) - 10, title, (50, 50, 50), font)
          (texts (skipn (length (calls empty_world))
                    (calls (snd (create_dmg_background bare_host empty_world)))))
       /\ In ((500 - (r' - l')) / 2, 300 / 2 + 10, subtitle, (80, 80, 80), small_font)
             (texts (skipn (length (calls empty_world))
                       (calls (snd (create_dmg_background bare_host empty_world)))))
       /\ (r - l <= 500 -> (500 - (r - l)) / 2 = Z.quot (500 - (r - l)) 2)
       /\ (r' - l' <= 500 -> (500 - (r' - l')) / 2 = Z.quot (500 - (r' - l')) 2).
Proof.
  apply (text_positions bare_host empty_world
           (snd (create_dmg_background bare_host empty_world))).
  vm_compute. reflexivity.
Defined.

(** C5 as the specification words it, with the quotient rounded toward
    zero for every width, fails on a host whose title measures 501 pixels:
    the title is drawn at [x = -1], and [(500 - 501) / 2] rounded toward
    zero is 0. *)
Lemma centering_toward_zero_fails :
  ~ (forall (host : @Host string) (w w' : World),
       create_dmg_background host w = (inr tt, w') ->
       forall font, fst (title_font host w) = inr font ->
       let '(l, t, r, b) := text_bbox host (0, 0) title font in
       In (Z.quot (500 - (r - l)) 2, 300 / 2 - (b - t) - 10, title, (50, 50, 50), font)
          (texts (skipn (length (calls w)) (calls w')))).
Proof.
  intros H.
  assert (Hrun : create_dmg_background wide_host empty_world
                 = (inr tt, snd (create_dmg_background wide_host empty_world)))
    by (vm_compute; reflexivity).
  specialize (H wide_host empty_world _ Hrun "default" eq_refl).
  vm_compute in H.
  destruct H as [H|[H|[H|[H|[]]]]]; discriminate H.
Qed.

(** C6: each text is drawn shadow first and foreground second.  The text
    calls of a successful run are, in order: the title's shadow at
    [(x + 2, y + 2)] in (100,100,100), the title at [(x, y)] in
    (50,50,50), the subtitle's shadow at [(x' + 1, y' + 1)] in
    (120,120,120), the subtitle at [(x', y')] in (80,80,80); and the saved
    image is painted in that order, every foreground over its shadow. *)
Theorem shadow_then_foreground {Font : Type} (host : @Host Font) (w w' : World) :
  create_dmg_background host w = (inr tt, w') ->
  exists font small_font x y x' y',
    texts (skipn (length (calls w)) (calls w'))
    = [(x + 2, y + 2, title, (100, 100, 100), font);
       (x, y, title, (50, 50, 50), font);
       (x' + 1, y' + 1, subtitle, (120, 120, 120), small_font);
       (x', y', subtitle, (80, 80, 80), small_font)]
    /\ files w' !! output_path
       = Some (encode host "PNG"
           (paint_text host
              (paint_text host
                 (paint_text host
                    (paint_text host (gradient_image host)
                       (x + 2, y + 2) title (100, 100, 100) font)
                    (x, y) title (50, 50, 50) font)
                 (x' + 1, y' + 1) subtitle (120, 120, 120) small_font)
              (x', y') subtitle (80, 80, 80) small_font)).
Proof.
  intros H.
  apply run_leaves in H as (font & small_font & _ & _ & Hc & Hf & _).
  rewrite Hc, Hf, lookup_insert_eq, texts_app, texts_draw_calls.
  unfold final_image, subtitled, titled, title_calls, subtitle_calls.
  destruct (title_xy 500 300 (text_bbox host (0, 0) title font)) as [x y].
  destruct (subtitle_xy 500 300 (text_bbox host (0, 0) subtitle small_font)) as [x' y'].
  exists font, small_font, x, y, x', y'.
  split; reflexivity.
Qed.

Lemma shadow_then_foreground_witness :
  exists font small_font x y x' y',
    texts (skipn (length (calls empty_world))
             (calls (snd (create_dmg_background bare_host empty_world))))
    = [(x + 2, y + 2, title, (100, 100, 100), font);
       (x, y, title, (50, 50, 50), font);
       (x' + 1, y' + 1, subtitle, (120, 120, 120), small_font);
       (x', y', subtitle, (80, 80, 80), small_font)]
    /\ files (snd (create_dmg_background bare_host empty_world)) !! output_path
       = Some (encode bare_host "PNG"
           (paint_text bare_host
              (paint_text bare_host
                 (paint_text bare_host
                    (paint_text bare_host (gradient_image bare_host)
                       (x + 2, y + 2) title (100, 100, 100) font)
                    (x, y) title (50, 50, 50) font)
                 (x' + 1, y' + 1) subtitle (120, 120, 120) small_font)
              (x', y') subtitle (80, 80, 80) small_font)).
Proof.
  apply (shadow_then_foreground bare_host empty_world
           (snd (create_dmg_background bare_host empty_world))).
  vm_compute. reflexivity.
Defined.

(** ** The output *)

(** C8: every successful run writes one file and no other, the PNG
    encoding of a 500 by 300 RGB image at
    [native/resources/dmg_background.png], makes sure the directory
    [native/resources] exists, and prints the one line
    [DMG background image created: native/resources/dmg_background.png];
    and a run does succeed on a host where no system font loads, as long
    as the built-in font does and nothing on disk is in the way. *)
Theorem run_writes_one_png {Font : Type} (host : @Host Font) :
  (forall w w' : World,
     create_dmg_background host w = (inr tt, w') ->
     exists im,
       im_size im = (500, 300)
       /\ im_mode im = "RGB"
       /\ files w' = <["native/resources/dmg_background.png" := encode host "PNG" im]> (files w)
       /\ saves (skipn (length (calls w)) (calls w'))
          = [("native/resources/dmg_background.png", "PNG")]
       /\ Py.dirname "native/resources/dmg_background.png" ∈ dirs w'
       /\ dirs w' = dirs w ∪ {["native"; "native/resources"]}
       /\ stdout w'
          = stdout w ++ ["DMG background image created: native/resources/dmg_background.png"])
  /\ (forall (w : World) (f : Font),
        (forall path size, truetype_file host path size = None) ->
        default_font host = Some f ->
        dirs_blocked host w = false ->
        file_blocked host w = false ->
        exists w', create_dmg_background host w = (inr tt, w')).
Proof.
  split.
  - intros w w' H.
    apply run_leaves in H as (font & small_font & _ & _ & Hc & Hf & Hd & Ho).
    exists (final_image host font small_font).
    destruct (final_image_size host font small_font) as [Hsz Hmd].
    rewrite Hc, saves_app, saves_draw_calls, Hd.
    repeat split; try assumption.
    change (Py.dirname "native/resources/dmg_background.png") with "native/resources".
    unfold out_dirs. rewrite elem_of_union, elem_of_list_to_set, !elem_of_cons. tauto.
  - intros w f Hno Hdef Hd Hf.
    eexists. apply (run_ok_intro host w f f); try assumption.
    + unfold picked_title_font. now rewrite !Hno.
    + unfold picked_subtitle_font. now rewrite Hno.
Qed.

Lemma run_writes_one_png_witness :
  exists w', create_dmg_background bare_host empty_world = (inr tt, w')
    /\ files w' !! "native/resources/dmg_background.png"
       = Some [Byte.x89; Byte.x50; Byte.x4e; Byte.x47]
    /\ stdout w' = ["DMG background image created: native/resources/dmg_background.png"].
Proof.
  destruct (proj2 (run_writes_one_png bare_host) empty_world "default")
    as [w' Hrun]; try reflexivity.
  exists w'. split; [exact Hrun|].
  destruct (proj1 (run_writes_one_png bare_host) empty_world w' Hrun)
    as (im & _ & _ & Hf & _ & _ & _ & Ho).
  split; [|exact Ho].
  rewrite Hf. apply lookup_insert_eq.
Defined.

(** C9: on a fixed host two successive runs leave the same bytes at the
    output path: the second run, started in the world the first one left,
    writes the file again with the content it already had. *)
Theorem successive_runs_same_png {Font : Type} (host : @Host Font)
    (w0 w1 w2 : World) :
  create_dmg_background host w0 = (inr tt, w1) ->
  create_dmg_background host w1 = (inr tt, w2) ->
  exists bytes,
    files w1 !! output_path = Some bytes
    /\ files w2 !! output_path = Some bytes
    /\ files w2 = files w1.
Proof.
  intros H1 H2.
  apply run_leaves in H1 as (font & small_font & Ht & Hs & _ & Hf1 & _).
  apply run_leaves in H2 as (font' & small_font' & Ht' & Hs' & _ & Hf2 & _).
  assert (font' = font) as -> by congruence.
  assert (small_font' = small_font) as -> by congruence.
  exists (encode host "PNG" (final_image host font small_font)).
  rewrite Hf2, Hf1, insert_insert_eq, lookup_insert_eq.
  repeat split.
Qed.

Lemma successive_runs_same_png_witness :
  exists bytes,
    files (snd (create_dmg_background bare_host empty_world)) !! output_path = Some bytes
    /\ files (snd (create_dmg_background bare_host
                     (snd (create_dmg_background bare_host empty_world)))) !! output_path
       = Some bytes
    /\ files (snd (create_dmg_background bare_host
                     (snd (create_dmg_background bare_host empty_world))))
       = files (snd (create_dmg_background bare_host empty_world)).
Proof.
  apply (successive_runs_same_png bare_host empty_world
           (snd (create_dmg_background bare_host empty_world))
           (snd (create_dmg_background bare_host
                   (snd (create_dmg_background bare_host empty_world)))));
    vm_compute; reflexivity.
Defined.

(** * Further properties of the procedure *)

(** ** Traces of every run, failed ones included *)

Lemma loads_app {Font : Type} (l l' : list (@Call Font)) :
  loads (l ++ l') = loads l ++ loads l'.
Proof. apply omap_app. Qed.

Lemma loads_rows {Font : Type} (l : list Z) : loads (map (@row_call Font) l) = [].
Proof. induction l as [|a l IH]; [reflexivity|exact IH]. Qed.

Lemma loads_gradient_calls {Font : Type} : loads (@gradient_calls Font) = [].
Proof. unfold gradient_calls. exact (@loads_rows Font (Py.range 300)). Qed.

Lemma loads_title_calls {Font : Type} (host : @Host Font) (font : Font) :
  loads (title_calls host font) = [].
Proof. unfold title_calls. now destruct (title_xy _ _ _). Qed.

Lemma loads_subtitle_calls {Font : Type} (host : @Host Font) (font : Font) :
  loads (subtitle_calls host font) = [].
Proof. unfold subtitle_calls. now destruct (subtitle_xy _ _ _). Qed.

(** The font loads of a run are those of the title chain, followed by
    those of the subtitle chain when the title chain returned. *)
Lemma run_loads {Font : Type} (host : @Host Font) (w : World) :
  loads (skipn (length (calls w)) (calls (snd (create_dmg_background host w))))
  = loads (title_loads host)
      ++ match picked_title_font host with
         | Some _ => loads (subtitle_loads host)
         | None => []
         end.
Proof.
  rewrite run_eq.
  destruct (picked_title_font host) as [font|].
  - destruct (picked_subtitle_font host) as [small_font|].
    + rewrite finish_eq.
      change (dirs_blocked host (logs _ w)) with (dirs_blocked host w).
      change (file_blocked host (logs _ w)) with (file_blocked host w).
      destruct (dirs_blocked host w); [|destruct (file_blocked host w)];
        unfold saved, logs, draw_calls; cbn [snd calls];
        rewrite <- !app_assoc, drop_app_length, !loads_app,
          loads_gradient_calls, loads_title_calls, loads_subtitle_calls;
        cbn [app]; rewrite app_nil_r; reflexivity.
    + unfold logs. cbn [snd calls].
      rewrite drop_app_length, !loads_app, loads_gradient_calls, loads_title_calls.
      reflexivity.
  - unfold logs. cbn [snd calls].
    rewrite drop_app_length, !loads_app, loads_gradient_calls, app_nil_r.
    reflexivity.
Qed.

(** ** Which fonts a run asks for *)

(** X1: whatever the host and however the run ends, the only font files
    a run tries to load are Arial at 24, Helvetica at 24 and Arial at 16;
    the first load is always Arial at 24, and there are at most five
    loads, the built-in font included. *)
Theorem font_loads_of_a_run {Font : Type} (host : @Host Font) (w : World) :
  let new := skipn (length (calls w)) (calls (snd (create_dmg_background host w))) in
  (forall path size, In (Some (path, size)) (loads new) ->
     (path, size) = (arial, 24) \/ (path, size) = (helvetica, 24)
     \/ (path, size) = (arial, 16))
  /\ head (loads new) = Some (Some (arial, 24))
  /\ (length (loads new) <= 5)%nat.
Proof.
  cbv zeta. rewrite run_loads.
  unfold picked_title_font, title_loads, subtitle_loads.
  destruct (truetype_file host arial 24) as [f1|];
    [|destruct (truetype_file host helvetica 24) as [f2|];
      [|destruct (default_font host) as [f3|]]];
    destruct (truetype_file host arial 16) as [f4|];
    cbn; (split; [|split; [reflexivity|lia]]);
    intros path size H;
    repeat (destruct H as [H|H];
            [first [discriminate H | injection H as <- <-; tauto]|]);
    contradiction.
Qed.

Lemma font_loads_of_a_run_witness :
  head (loads (skipn (length (calls empty_world))
                 (calls (snd (create_dmg_background fontless_host empty_world)))))
  = Some (Some (arial, 24)).
Proof. exact (proj1 (proj2 (font_loads_of_a_run fontless_host empty_world))). Defined.

(** ** When a run succeeds, and what a failed one leaves *)

(** X2: a run returns normally exactly when a title font resolves (Arial
    or Helvetica at 24, or the built-in font), a subtitle font resolves
    (Arial at 16 or the built-in font), the two directories can be had
    and the output file can be written.  So a host that has Helvetica
    but neither Arial nor the built-in font does not complete a run:
    Helvetica is no candidate for the subtitle. *)
Theorem run_succeeds_iff {Font : Type} (host : @Host Font) (w : World) :
  (exists w', create_dmg_background host w = (inr tt, w'))
  <-> (truetype_file host arial 24 <> None
       \/ truetype_file host helvetica 24 <> None
       \/ default_font host <> None)
      /\ (truetype_file host arial 16 <> None \/ default_font host <> None)
      /\ dirs_blocked host w = false
      /\ file_blocked host w = false.
Proof.
  split.
  - intros [w' H].
    apply run_ok_inv in H as (font & small_font & Ht & Hs & Hd & Hf & _).
    unfold picked_title_font in Ht. unfold picked_subtitle_font in Hs.
    repeat split; try assumption.
    + destruct (truetype_file host arial 24); [left; discriminate|].
      destruct (truetype_file host helvetica 24); [right; left; discriminate|].
      right. right. congruence.
    + destruct (truetype_file host arial 16); [left; discriminate|].
      right. congruence.
  - intros (Ht & Hs & Hd & Hf).
    assert (exists font, picked_title_font host = Some font) as [font Hfont].
    { unfold picked_title_font.
      destruct (truetype_file host arial 24) as [f|]; [now exists f|].
      destruct (truetype_file host helvetica 24) as [f|]; [now exists f|].
      destruct (default_font host) as [f|]; [now exists f|].
      exfalso. destruct Ht as [Ht|[Ht|Ht]]; now apply Ht. }
    assert (exists font, picked_subtitle_font host = Some font) as [small_font Hsmall].
    { unfold picked_subtitle_font.
      destruct (truetype_file host arial 16) as [f|]; [now exists f|].
      destruct (default_font host) as [f|]; [now exists f|].
      exfalso. destruct Hs as [Hs|Hs]; now apply Hs. }
    eexists. now apply (run_ok_intro host w font small_font).
Qed.

Lemma run_succeeds_iff_witness :
  exists w', create_dmg_background helvetica_host empty_world = (inr tt, w').
Proof.
  apply (proj2 (run_succeeds_iff helvetica_host empty_world)).
  repeat split; try reflexivity.
  - right. left. discriminate.
  - right. discriminate.
Defined.





(** ** Running again *)

Lemma saved_not_blocked {Font : Type} (host : @Host Font) (im : Image)
    (w : World) :
  dirs_blocked host w = false ->
  file_blocked host w = false ->
  dirs_blocked host (saved host im w) = false
  /\ file_blocked host (saved host im w) = false.
Proof.
  intros Hd Hf. split.
  - unfold dirs_blocked, saved, out_dirs in *. cbn [dirs files existsb] in *.
    apply orb_false_elim in Hd as [Hd _].
    apply orb_false_intro.
    + rewrite !lookup_insert_ne by discriminate. exact Hd.
    + rewrite !bool_decide_eq_true_2; [reflexivity| |];
        rewrite elem_of_union, elem_of_list_to_set, !elem_of_cons; tauto.
  - unfold file_blocked, saved in *. cbn [dirs].
    rewrite output_path_fresh. exact Hf.
Qed.

(** X5: the procedure can be run again.  After a successful run a second
    run on the same host succeeds too (the directories existing is no
    error), leaves the directories and the files exactly as the first run
    left them, and prints the report line once more. *)
Theorem rerun_succeeds {Font : Type} (host : @Host Font) (w0 w1 : World) :
  create_dmg_background host w0 = (inr tt, w1) ->
  exists w2,
    create_dmg_background host w1 = (inr tt, w2)
    /\ dirs w2 = dirs w1
    /\ files w2 = files w1
    /\ stdout w2 = stdout w1 ++ [report].
Proof.
  intros H.
  apply run_ok_inv in H as (font & small_font & Ht & Hs & Hd & Hf & ->).
  set (w1 := saved host (final_image host font small_font)
               (logs (draw_calls host font small_font) w0)).
  destruct (saved_not_blocked host (final_image host font small_font)
              (logs (draw_calls host font small_font) w0) Hd Hf) as [Hd1 Hf1].
  fold w1 in Hd1, Hf1.
  eexists. split; [apply (run_ok_intro host w1 font small_font); assumption|].
  unfold saved at 1 2 3, logs at 1 2 3. cbn [dirs files stdout].
  split; [|split; [|reflexivity]].
  - unfold w1, saved. cbn [dirs].
    now rewrite <- (assoc_L (∪)), (idemp_L (∪)).
  - unfold w1, saved. cbn [files]. apply insert_insert_eq.
Qed.

Lemma rerun_succeeds_witness :
  exists w2,
    create_dmg_background bare_host
      (snd (create_dmg_background bare_host empty_world)) = (inr tt, w2)
    /\ dirs w2 = dirs (snd (create_dmg_background bare_host empty_world))
    /\ files w2 = files (snd (create_dmg_background bare_host empty_world))
    /\ stdout w2 = stdout (snd (create_dmg_background bare_host empty_world)) ++ [report].
Proof.
  apply (rerun_succeeds bare_host empty_world).
  vm_compute. reflexivity.
Defined.

(** ** Layout *)

(** X6: both texts are centred to within a pixel, whatever their box:
    the margin left of the text, [x], and the margin right of it,
    [500 - (x + width)], differ by at most one, the odd pixel going to
    the right.  This holds for texts wider than the canvas too, where
    both margins are negative. *)
Theorem texts_centred_within_a_pixel (bbox : BBox) :
  let '(l, _, r, _) := bbox in
  let text_width := r - l in
  let x := fst (title_xy 500 300 bbox) in
  let x' := fst (subtitle_xy 500 300 bbox) in
  x = x'
  /\ x <= 500 - (x + text_width) <= x + 1.
Proof.
  destruct bbox as [[[l t] r] b].
  rewrite title_xy_eq, subtitle_xy_eq. cbn [fst].
  split; [reflexivity|].
  pose proof (Z.div_mod (500 - (r - l)) 2 ltac:(lia)) as Hdm.
  pose proof (Z.mod_pos_bound (500 - (r - l)) 2 ltac:(lia)) as Hm.
  lia.
Qed.

(** ** The bands of the gradient *)

(** X7: the binary64 computation of the gradient scalar agrees with the
    integer formula [240 + y // 20] on every row, so the gradient is made
    of fifteen bands of twenty rows: two rows get the same fill exactly
    when they lie in the same band. *)
Theorem gradient_bands (y y' : Z) :
  0 <= y < 300 -> 0 <= y' < 300 ->
  color_value 300 y = inr (240 + y / 20)
  /\ 0 <= y / 20 < 15
  /\ (color_value 300 y = color_value 300 y' <-> y / 20 = y' / 20).
Proof.
  intros Hy Hy'.
  rewrite (color_value_row y Hy), (color_value_row y' Hy').
  split; [reflexivity|split].
  - split; [apply Z.div_pos; lia|apply Z.div_lt_upper_bound; lia].
  - split; [intros [= H]; lia|intros ->; reflexivity].
Qed.

Lemma gradient_bands_witness :
  color_value 300 139 = inr (240 + 139 / 20)
  /\ 0 <= 139 / 20 < 15
  /\ (color_value 300 139 = color_value 300 120 <-> 139 / 20 = 120 / 20).
Proof. apply (gradient_bands 139 120); lia. Defined.

(** ** The saved picture *)




(** ** The order of a successful run *)

(** X9: a successful run allocates the canvas, then draws the 300 rows
    from the top down, then does all its font and text work without
    drawing another line, and only then creates the directory, saves and
    prints: nothing is drawn after the save, and the print is the last
    call. *)
Theorem drawing_precedes_saving {Font : Type} (host : @Host Font) (w w' : World) :
  create_dmg_background host w = (inr tt, w') ->
  exists mid,
    skipn (length (calls w)) (calls w')
    = CNew "RGB" (500, 300) white
        :: map (fun y => CLine (0, y) (500, y) (row_color (240 + y / 20))) (Py.range 300)
        ++ mid
        ++ [CMakedirs "native/resources" true;
            CSave "native/resources/dmg_background.png" "PNG";
            CPrint "DMG background image created: native/resources/dmg_background.png"]
    /\ (forall p0 p1 fill, ~ In (CLine p0 p1 fill) mid)
    /\ length (texts mid) = 4%nat
    /\ saves mid = [].
Proof.
  intros H.
  apply run_leaves in H as (font & small_font & _ & _ & Hc & _).
  exists (title_loads host ++ title_calls host font
            ++ subtitle_loads host ++ subtitle_calls host small_font).
  split; [|split; [|split]].
  - rewrite Hc. unfold draw_calls, gradient_calls.
    rewrite <- !app_assoc. reflexivity.
  - intros p0 p1 fill Hin.
    unfold title_loads, subtitle_loads, title_calls, subtitle_calls in Hin.
    destruct (title_xy _ _ _), (subtitle_xy _ _ _).
    repeat (apply in_app_or in Hin as [Hin|Hin]);
      repeat match type of Hin with
             | In _ (match ?o with _ => _ end) => destruct o
             end;
      cbn in Hin;
      repeat (destruct Hin as [Hin|Hin]; [discriminate Hin|]); exact Hin.
  - rewrite !texts_app, texts_title_loads, texts_subtitle_loads.
    unfold title_calls, subtitle_calls.
    destruct (title_xy _ _ _), (subtitle_xy _ _ _). reflexivity.
  - rewrite !saves_app, saves_title_loads, saves_subtitle_loads.
    unfold title_calls, subtitle_calls.
    destruct (title_xy _ _ _), (subtitle_xy _ _ _). reflexivity.
Qed.

Lemma drawing_precedes_saving_witness :
  exists mid,
    skipn (length (calls empty_world))
      (calls (snd (create_dmg_background bare_host empty_world)))
    = CNew "RGB" (500, 300) white
        :: map (fun y => CLine (0, y) (500, y) (row_color (240 + y / 20))) (Py.range 300)
        ++ mid
        ++ [CMakedirs "native/resources" true;
            CSave "native/resources/dmg_background.png" "PNG";
            CPrint "DMG background image created: native/resources/dmg_background.png"]
    /\ (forall p0 p1 fill, ~ In (CLine p0 p1 fill) mid)
    /\ length (texts mid) = 4%nat
    /\ saves mid = [].
Proof.
  apply (drawing_precedes_saving bare_host empty_world
           (snd (create_dmg_background bare_host empty_world))).
  vm_compute. reflexivity.
Defined.

(** ** A host without any font *)

(** X10: when neither Arial nor Helvetica loads at 24 and the built-in
    font is unavailable, the run raises only after the whole gradient has
    been drawn: its calls are the allocation, the 300 lines and the three
    failed loads.  No text is measured or drawn, Arial at 16 is never
    tried, and directories, files and console are left as they were. *)
Theorem no_font_stops_after_gradient {Font : Type} (host : @Host Font) (w : World) :
  truetype_file host arial 24 = None ->
  truetype_file host helvetica 24 = None ->
  default_font host = None ->
  exists e w',
    create_dmg_background host w = (inl e, w')
    /\ skipn (length (calls w)) (calls w')
       = CNew "RGB" (500, 300) white
           :: map (fun y => CLine (0, y) (500, y) (row_color (240 + y / 20))) (Py.range 300)
           ++ [CTruetype arial 24; CTruetype helvetica 24; CLoadDefault]
    /\ dirs w' = dirs w
    /\ files w' = files w
    /\ stdout w' = stdout w.
Proof.
  intros Ha Hh Hd.
  eexists _, _. split.
  - rewrite run_eq. unfold picked_title_font. rewrite Ha, Hh, Hd. reflexivity.
  - unfold logs, title_loads, gradient_calls. rewrite Ha, Hh.
    cbn [calls dirs files stdout].
    rewrite drop_app_length. repeat split.
Qed.

Lemma no_font_stops_after_gradient_witness :
  exists e w',
    create_dmg_background fontless_host empty_world = (inl e, w')
    /\ skipn (length (calls empty_world)) (calls w')
       = CNew "RGB" (500, 300) white
           :: map (fun y => CLine (0, y) (500, y) (row_color (240 + y / 20))) (Py.range 300)
           ++ [CTruetype arial 24; CTruetype helvetica 24; CLoadDefault]
    /\ dirs w' = dirs empty_world
    /\ files w' = files empty_world
    /\ stdout w' = stdout empty_world.
Proof.
  apply (no_font_stops_after_gradient fontless_host empty_world); reflexivity.
Defined.
